(** * KKKF.DynamicalSystems: a shallow embedding and its specification

    The module under study is [src/KKKF/DynamicalSystems.py]: the class
    [DynamicalSystem] (seven attributes, three methods) and the builder
    [create_additive_system].

    Modelling choices.
    - Scalars are exact rationals ([Qc], canonical fractions with Leibniz
      equality): the "real vectors" of the documentation.  Binary64 rounding,
      infinities and nan are outside this carrier, so the statements about
      these arrays say which operations meet which elements and use no
      identity of exact arithmetic other than [r + 0 = r].  Where rounding
      decides a property, the method body is evaluated on arrays of binary64
      numbers ([ndarray64]).
    - The mean of zero elements is nan in NumPy, a value with which the
      caller goes on; the carrier has no nan and the model stops there with
      the outcome [Fail NanMean].  No statement below concerns that case.
    - A NumPy array is a shape together with its elements in row-major order.
    - Dimensions and sample counts are natural numbers: NumPy rejects a
      negative sample count, and the wildcard [-1] of [reshape] is not
      modelled.
    - Python exceptions are failure outcomes which propagate through [bind].
    - Randomness is explicit state: a sampler consumes and returns the state
      [G] of the random generator.  User callables (the maps, the samplers)
      may read and advance that state.
    - Methods run in a state monad over the receiver object and the generator
      state, reading attributes with [attr]. *)

From Stdlib Require Import List Arith Lia ZArith QArith Qcanon Bool PrimFloat.
Import ListNotations.

Set Implicit Arguments.
Local Open Scope nat_scope.

(* ------------------------------------------------------------------ *)
(** ** Arrays *)

Record ndarray : Type := mk_nd { shape : list nat; data : list Qc }.

(** Number of elements announced by a shape ([ndarray.size]). *)
Definition numel (sh : list nat) : nat := fold_right Nat.mul 1 sh.

Definition size (a : ndarray) : nat := numel (shape a).

(** Well-formed arrays carry as many elements as their shape announces. *)
Definition wf (a : ndarray) : Prop := length (data a) = size a.

Definition scalar (q : Qc) : ndarray := mk_nd [] [q].
Definition vec (l : list Qc) : ndarray := mk_nd [length l] l.
Definition zeros (sh : list nat) : ndarray := mk_nd sh (repeat 0%Qc (numel sh)).

Definition shape_eq_dec : forall s t : list nat, {s = t} + {s <> t} :=
  list_eq_dec Nat.eq_dec.

(** Outcomes of NumPy and of user code. *)
Inductive failure : Type :=
| BroadcastError        (* ValueError: operands could not be broadcast together *)
| ReshapeError          (* ValueError: cannot reshape array of size n into shape s *)
| IterationError        (* TypeError: iteration over a 0-d array *)
| InhomogeneousError    (* ValueError: inhomogeneous shape when stacking a list *)
| NanMean               (* mean of zero elements: nan, outside the carrier *)
| UserError (code : nat).

Inductive outcome (A : Type) : Type :=
| Ok (a : A)
| Fail (e : failure).
Arguments Fail {A} e.

(** *** Broadcasting *)

(** Broadcast of two shapes, both given innermost axis first. *)
Fixpoint bshape_rev (s t : list nat) : option (list nat) :=
  match s, t with
  | [], _ => Some t
  | _, [] => Some s
  | a :: s', b :: t' =>
      match bshape_rev s' t' with
      | None => None
      | Some r =>
          if a =? b then Some (a :: r)
          else if a =? 1 then Some (b :: r)
          else if b =? 1 then Some (a :: r)
          else None
      end
  end.

Definition broadcast_shapes (s t : list nat) : option (list nat) :=
  option_map (@rev nat) (bshape_rev (rev s) (rev t)).

(** [chunks k n l]: the first [n] consecutive blocks of [k] elements of [l]. *)
Fixpoint chunks (A : Type) (k n : nat) (l : list A) : list (list A) :=
  match n with
  | 0 => []
  | S n' => firstn k l :: chunks k n' (skipn k l)
  end.

(** A shape padded with leading unit axes up to rank [r]. *)
Definition pad_shape (r : nat) (sh : list nat) : list nat :=
  repeat 1 (r - length sh) ++ sh.

(** Elements of an array of shape [src] stretched to shape [tgt] (same rank,
    every axis of [src] either equal to that of [tgt] or 1). *)
Fixpoint broadcast_data (A : Type) (src tgt : list nat) (d : list A) : list A :=
  match src, tgt with
  | a :: src', b :: tgt' =>
      if a =? b
      then flat_map (broadcast_data src' tgt') (chunks (numel src') a d)
      else concat (repeat (broadcast_data src' tgt' d) b)
  | _, _ => d
  end.

Definition broadcast_to (sh : list nat) (a : ndarray) : list Qc :=
  broadcast_data (pad_shape (length sh) (shape a)) sh (data a).

Fixpoint zip_with (A B C : Type) (op : A -> B -> C) (l : list A) (m : list B) : list C :=
  match l, m with
  | x :: l', y :: m' => op x y :: zip_with op l' m'
  | _, _ => []
  end.

(** An element-wise binary operator of NumPy. *)
Definition np_binop (op : Qc -> Qc -> Qc) (a b : ndarray) : outcome ndarray :=
  match broadcast_shapes (shape a) (shape b) with
  | Some sh => Ok (mk_nd sh (zip_with op (broadcast_to sh a) (broadcast_to sh b)))
  | None => Fail BroadcastError
  end.

Definition np_add : ndarray -> ndarray -> outcome ndarray := np_binop Qcplus.
Definition np_sub : ndarray -> ndarray -> outcome ndarray := np_binop Qcminus.
Definition np_mul : ndarray -> ndarray -> outcome ndarray := np_binop Qcmult.

(** [(a == b).all()]. *)
Definition np_all_equal (a b : ndarray) : outcome bool :=
  match broadcast_shapes (shape a) (shape b) with
  | Some sh =>
      Ok (forallb (fun b => b)
            (zip_with Qc_eq_bool (broadcast_to sh a) (broadcast_to sh b)))
  | None => Fail BroadcastError
  end.

(** [a.reshape(sh)] for a shape without wildcard. *)
Definition np_reshape (a : ndarray) (sh : list nat) : outcome ndarray :=
  if size a =? numel sh then Ok (mk_nd sh (data a)) else Fail ReshapeError.

(** [for w in a]: the sub-arrays along the first axis. *)
Definition np_iter (a : ndarray) : outcome (list ndarray) :=
  match shape a with
  | [] => Fail IterationError
  | n :: sh => Ok (map (mk_nd sh) (chunks (numel sh) n (data a)))
  end.

Definition Qc_of_nat (n : nat) : Qc := Q2Qc (inject_Z (Z.of_nat n)).

Definition sum (l : list Qc) : Qc := fold_right Qcplus 0%Qc l.

Definition same_shape (vals : list ndarray) : bool :=
  match vals with
  | [] => true
  | v :: rest =>
      forallb (fun u => if shape_eq_dec (shape u) (shape v) then true else false) rest
  end.

(** [np.mean(vals)] of a Python list of arrays, no axis given: the list is
    stacked into one array and every element of it enters one average. *)
Definition np_mean (vals : list ndarray) : outcome ndarray :=
  if same_shape vals then
    let xs := flat_map data vals in
    match length xs with
    | 0 => Fail NanMean
    | S _ => Ok (scalar (sum xs / Qc_of_nat (length xs))%Qc)
    end
  else Fail InhomogeneousError.

(* ------------------------------------------------------------------ *)
(** ** Computations with state and failure *)

Definition ST (S A : Type) : Type := S -> outcome A * S.

Definition ret (S A : Type) (a : A) : ST S A := fun s => (Ok a, s).

Definition bind (S A B : Type) (m : ST S A) (k : A -> ST S B) : ST S B :=
  fun s =>
    match m s with
    | (Ok a, s') => k a s'
    | (Fail e, s') => (Fail e, s')
    end.

(** A NumPy result enters a computation: a value, or a raised exception. *)
Definition liftO (S A : Type) (o : outcome A) : ST S A := fun s => (o, s).

Declare Scope st_scope.
Delimit Scope st_scope with st.
Notation "x <- m ;; k" := (bind m (fun x => k))
  (at level 100, m at next level, right associativity) : st_scope.
Local Open Scope st_scope.

(** The list comprehension [[h(w) for w in items]]. *)
Fixpoint mapM (S A B : Type) (h : A -> ST S B) (items : list A) : ST S (list B) :=
  match items with
  | [] => ret []
  | w :: rest =>
      v <- h w ;;
      vs <- mapM h rest ;;
      ret (v :: vs)
  end.

(* ------------------------------------------------------------------ *)
(** ** The class [DynamicalSystem] and its builder *)

Section System.

(** State of the random generator consulted by the samplers. *)
Variable G : Type.

(** What user code may do: compute, fail, advance the generator. *)
Definition M (A : Type) : Type := ST G A.

(** The part of [scipy.stats.rv_continuous] which the module calls. *)
Record rv_continuous : Type := mk_rv { rvs : nat -> M ndarray }.

(** The seven attributes; [__init__] stores its arguments and does nothing
    else, so the constructor [mk_system] stands for it. *)
Record DynamicalSystem : Type := mk_system {
  nx : nat;
  ny : nat;
  f : ndarray -> M ndarray;
  g : ndarray -> M ndarray;
  dist_X : rv_continuous;
  dist_dyn : rv_continuous;
  dist_obs : rv_continuous
}.

(** A method body sees its receiver and the generator. *)
Record world : Type := mk_world { self : DynamicalSystem; rng : G }.

Definition Obj (A : Type) : Type := ST world A.

(** [self.name] *)
Definition attr (A : Type) (name : DynamicalSystem -> A) : Obj A :=
  fun w => (Ok (name (self w)), w).

(** [self.name = v]; no method of the class uses it. *)
Definition set_attr (upd : DynamicalSystem -> DynamicalSystem) : Obj unit :=
  fun w => (Ok tt, mk_world (upd (self w)) (rng w)).

(** A call of user code from inside a method: it may advance the generator;
    it holds no reference to the receiver. *)
Definition call (A : Type) (m : M A) : Obj A :=
  fun w => let (r, g') := m (rng w) in (r, mk_world (self w) g').

(** [return self.f(x) + w] *)
Definition dynamics (x w : ndarray) : Obj ndarray :=
  h <- attr f ;;
  r <- call (h x) ;;
  liftO (np_add r w).

(** [return self.g(x) + v] *)
Definition measurements (x v : ndarray) : Obj ndarray :=
  h <- attr g ;;
  r <- call (h x) ;;
  liftO (np_add r v).

(** [return self.dist_X.rvs(size=size).reshape((size, self.nx))] *)
Definition sample_initial_state (count : nat) : Obj ndarray :=
  d <- attr dist_X ;;
  raw <- call (rvs d count) ;;
  n <- attr nx ;;
  liftO (np_reshape raw [count; n]).

(** [lambda x: np.mean([h(x, w) for w in dist.rvs(N_samples)])] *)
Definition monte_carlo_mean (h : ndarray -> ndarray -> M ndarray)
    (dist : rv_continuous) (N_samples : nat) : ndarray -> M ndarray :=
  fun x =>
    ws <- rvs dist N_samples ;;
    items <- liftO (np_iter ws) ;;
    vals <- mapM (h x) items ;;
    liftO (np_mean vals).

Definition create_additive_system (nx ny : nat)
    (f g : ndarray -> ndarray -> M ndarray)
    (dist_X dist_dyn dist_obs : rv_continuous) (N_samples : nat)
    : DynamicalSystem :=
  let new_f := monte_carlo_mean f dist_dyn N_samples in
  let new_g := monte_carlo_mean g dist_obs N_samples in
  mk_system nx ny new_f new_g dist_X dist_dyn dist_obs.

(** *** Driving a system *)

Inductive method_call : Type :=
| CallDynamics (x w : ndarray)
| CallMeasurements (x v : ndarray)
| CallSample (count : nat).

Definition invoke (c : method_call) : Obj ndarray :=
  match c with
  | CallDynamics x w => dynamics x w
  | CallMeasurements x v => measurements x v
  | CallSample count => sample_initial_state count
  end.

(** The world after a sequence of calls; a caller may catch an exception and
    go on, so a failed call does not end the sequence. *)
Fixpoint run_calls (cs : list method_call) (w : world) : world :=
  match cs with
  | [] => w
  | c :: rest => run_calls rest (snd (invoke c w))
  end.

(** Two successive calls of a callable on the same argument return the same
    outcome. *)
Definition repeatable (h : ndarray -> M ndarray) : Prop :=
  forall x s, fst (h x (snd (h x s))) = fst (h x s).

(** A callable without effect: it returns [k x] and leaves the generator. *)
Definition pure_map (k : ndarray -> outcome ndarray) : ndarray -> M ndarray :=
  fun x => liftO (k x).

End System.

Arguments mk_rv {G} rvs.
Arguments mk_system {G} nx ny f g dist_X dist_dyn dist_obs.
Arguments mk_world {G} self rng.
Arguments pure_map {G} k x.

(* ------------------------------------------------------------------ *)
(** ** Auxiliary notions *)

(** A method body which hands the receiver back as it found it. *)
Definition preserves_self (G A : Type) (m : Obj G A) : Prop :=
  forall w, self (snd (m w)) = self w.

(** [[k(w) for w in items]] for a function without effect. *)
Fixpoint traverse (A B : Type) (k : A -> outcome B) (items : list A)
  : outcome (list B) :=
  match items with
  | [] => Ok []
  | w :: rest =>
      match k w with
      | Ok v =>
          match traverse k rest with
          | Ok vs => Ok (v :: vs)
          | Fail e => Fail e
          end
      | Fail e => Fail e
      end
  end.

(** The mean of an effect-free raw function [k] at [x] over the samples [ws]. *)
Definition mean_over (k : ndarray -> ndarray -> outcome ndarray)
    (x ws : ndarray) : outcome ndarray :=
  match np_iter ws with
  | Ok items =>
      match traverse (k x) items with
      | Ok vals => np_mean vals
      | Fail e => Fail e
      end
  | Fail e => Fail e
  end.

(** A raw function without effect, as a callable. *)
Definition pure_raw (G : Type) (k : ndarray -> ndarray -> outcome ndarray)
  : ndarray -> ndarray -> M G ndarray :=
  fun x w => liftO (k x w).

(** What a derived map does with the samples [ws] once they are drawn:
    [np.mean([h(x, w) for w in ws])]. *)
Definition mean_of_draw (G : Type) (h : ndarray -> ndarray -> M G ndarray)
    (x ws : ndarray) : M G ndarray :=
  items <- liftO (np_iter ws) ;;
  vals <- mapM (h x) items ;;
  liftO (np_mean vals).

(* ------------------------------------------------------------------ *)
(** ** Arrays of binary64 numbers

    The arithmetic of [NDArray[np.float64]]: the same shapes and the same
    broadcasting, the elements combined by the IEEE 754 operations. *)

Record ndarray64 : Type := mk_nd64 { shape64 : list nat; data64 : list float }.

Definition vec64 (l : list float) : ndarray64 := mk_nd64 [length l] l.

Definition broadcast_to64 (sh : list nat) (a : ndarray64) : list float :=
  broadcast_data (pad_shape (length sh) (shape64 a)) sh (data64 a).

Definition np_binop64 (op : float -> float -> float) (a b : ndarray64)
  : outcome ndarray64 :=
  match broadcast_shapes (shape64 a) (shape64 b) with
  | Some sh =>
      Ok (mk_nd64 sh (zip_with op (broadcast_to64 sh a) (broadcast_to64 sh b)))
  | None => Fail BroadcastError
  end.

Definition np_add64 : ndarray64 -> ndarray64 -> outcome ndarray64 :=
  np_binop64 PrimFloat.add.
Definition np_sub64 : ndarray64 -> ndarray64 -> outcome ndarray64 :=
  np_binop64 PrimFloat.sub.
Definition np_div64 : ndarray64 -> ndarray64 -> outcome ndarray64 :=
  np_binop64 PrimFloat.div.

(** [(a == b).all()] with the IEEE comparison. *)
Definition np_all_equal64 (a b : ndarray64) : outcome bool :=
  match broadcast_shapes (shape64 a) (shape64 b) with
  | Some sh =>
      Ok (forallb (fun b => b)
            (zip_with PrimFloat.eqb (broadcast_to64 sh a) (broadcast_to64 sh b)))
  | None => Fail BroadcastError
  end.

(** [return self.f(x) + w] for a stored map [h] without effect. *)
Definition dynamics64 (h : ndarray64 -> outcome ndarray64) (x w : ndarray64)
  : outcome ndarray64 :=
  match h x with
  | Ok r => np_add64 r w
  | Fail e => Fail e
  end.

(** [lambda x: x + 1] *)
Definition succ64 (x : ndarray64) : outcome ndarray64 :=
  np_add64 x (mk_nd64 [] [1%float]).

(* ------------------------------------------------------------------ *)
(** ** Concrete systems

    The generator state is a counter of the draws made so far. *)

(** A sampler whose draws depend on the generator state, as those of any
    random distribution do: the [n] samples of draw number [s] are all [s]. *)
Definition counter_dist : rv_continuous nat :=
  mk_rv (fun n s => (Ok (vec (repeat (Qc_of_nat s) n)), S s)).

(** A degenerate distribution: every sample is [q]; the generator advances
    all the same. *)
Definition constant_dist (q : Qc) : rv_continuous nat :=
  mk_rv (fun n s => (Ok (vec (repeat q n)), S s)).

(** A distribution over vectors of [d] components: [n] samples come as an
    array of [n] rows and [d] columns. *)
Definition block_dist (d : nat) (q : Qc) : rv_continuous nat :=
  mk_rv (fun n s => (Ok (mk_nd [n; d] (repeat q (n * d))), S s)).

(** [lambda x, w: x + w] *)
Definition add_noise : ndarray -> ndarray -> M nat ndarray := pure_raw np_add.

(** [create_additive_system(1, 1, add_noise, add_noise, ..., N_samples=3)]
    over state-dependent noise. *)
Definition resampling_system : DynamicalSystem nat :=
  create_additive_system 1 1 add_noise add_noise
    (constant_dist 0%Qc) counter_dist counter_dist 3.

(** The same builder over a noise distribution which always draws 1. *)
Definition unit_draw_system : DynamicalSystem nat :=
  create_additive_system 1 1 add_noise add_noise
    (constant_dist 0%Qc) (constant_dist 1%Qc) (constant_dist 1%Qc) 3.

(** [DynamicalSystem(nx, 1, lambda x: x + 1, lambda x: 2*x, dist_X, ...)] *)
Definition affine_system (nx : nat) (dist_X : rv_continuous nat)
  : DynamicalSystem nat :=
  mk_system nx 1
    (pure_map (fun x => np_add x (scalar 1%Qc)))
    (pure_map (fun x => np_mul (scalar (Q2Qc 2)) x))
    dist_X counter_dist counter_dist.

(** A distribution whose samples differ within one draw: draw number [s]
    yields [s, s+1, ..., s+n-1]. *)
Definition ramp_dist : rv_continuous nat :=
  mk_rv (fun n s => (Ok (vec (map Qc_of_nat (seq s n))), S s)).

(** A raw function which raises on the sample [bad] and is [x + w] on any
    other. *)
Definition reject_sample (bad : Qc) : ndarray -> ndarray -> M nat ndarray :=
  fun x w =>
    match data w with
    | [q] => if Qc_eq_bool q bad then liftO (Fail (UserError 1))
             else liftO (np_add x w)
    | _ => liftO (np_add x w)
    end.

(* ------------------------------------------------------------------ *)
(** ** Facts about arrays *)

(** Equalities between concrete arrays: evaluate, then compare fractions. *)
Ltac qc_eq :=
  vm_compute;
  repeat match goal with
         | |- @eq Qc _ _ => apply Qc_is_canon; reflexivity
         | |- _ => reflexivity
         | |- _ => progress f_equal
         end.

Section ListFacts.

Variable A : Type.

Lemma chunks_length (k n : nat) (l : list A) : length (chunks k n l) = n.
Proof.
  revert l; induction n as [|n IH]; intros l; simpl; [reflexivity|].
  now rewrite IH.
Qed.

(** Cutting a list of [n * k] elements into blocks and treating each block by
    a function which is the identity on blocks of [k] elements gives the list
    back. *)
Lemma flat_map_chunks (h : list A -> list A) (k n : nat) (l : list A) :
  length l = n * k ->
  (forall c, length c = k -> h c = c) ->
  flat_map h (chunks k n l) = l.
Proof.
  intros Hlen Hid; revert l Hlen.
  induction n as [|n IH]; intros l Hlen; simpl in *.
  - now destruct l.
  - rewrite IH by (rewrite length_skipn; lia).
    rewrite Hid by (rewrite length_firstn; lia).
    apply firstn_skipn.
Qed.

Lemma concat_repeat_repeat (x : A) (k n : nat) :
  concat (repeat (repeat x k) n) = repeat x (n * k).
Proof.
  induction n as [|n IH]; simpl; [reflexivity|].
  now rewrite IH, repeat_app.
Qed.

Lemma broadcast_data_same (sh : list nat) (d : list A) :
  length d = numel sh -> broadcast_data sh sh d = d.
Proof.
  revert d; induction sh as [|a sh IH]; intros d Hd; simpl in *; [reflexivity|].
  rewrite Nat.eqb_refl.
  apply flat_map_chunks; auto.
Qed.

(** A single element stretched over a whole shape. *)
Lemma broadcast_data_single (sh : list nat) (x : A) :
  broadcast_data (repeat 1 (length sh)) sh [x] = repeat x (numel sh).
Proof.
  induction sh as [|a sh IH]; [reflexivity|].
  cbn [length repeat broadcast_data numel fold_right].
  fold (numel sh). fold (numel (repeat 1 (length sh))).
  destruct (Nat.eqb_spec 1 a) as [<-|Hne].
  - replace (numel (repeat 1 (length sh))) with 1
      by (clear; induction sh; simpl; lia).
    simpl. rewrite IH, app_nil_r. f_equal; lia.
  - rewrite IH. apply concat_repeat_repeat.
Qed.

End ListFacts.

Lemma pad_shape_same (sh : list nat) : pad_shape (length sh) sh = sh.
Proof. unfold pad_shape. now rewrite Nat.sub_diag. Qed.

Lemma pad_shape_nil (r : nat) : pad_shape r [] = repeat 1 r.
Proof. unfold pad_shape. simpl. now rewrite Nat.sub_0_r, app_nil_r. Qed.

Lemma bshape_rev_same (s : list nat) : bshape_rev s s = Some s.
Proof.
  induction s as [|a s IH]; simpl; [reflexivity|].
  now rewrite IH, Nat.eqb_refl.
Qed.

Lemma bshape_rev_nil_r (s : list nat) : bshape_rev s [] = Some s.
Proof. now destruct s. Qed.

Lemma broadcast_shapes_same (s : list nat) : broadcast_shapes s s = Some s.
Proof.
  unfold broadcast_shapes. rewrite bshape_rev_same. simpl.
  now rewrite rev_involutive.
Qed.

Lemma broadcast_shapes_nil_r (s : list nat) : broadcast_shapes s [] = Some s.
Proof.
  unfold broadcast_shapes. simpl. rewrite bshape_rev_nil_r. simpl.
  now rewrite rev_involutive.
Qed.

Lemma broadcast_shapes_nil_l (s : list nat) : broadcast_shapes [] s = Some s.
Proof.
  unfold broadcast_shapes. simpl. now rewrite rev_involutive.
Qed.

Lemma broadcast_to_same (a : ndarray) : wf a -> broadcast_to (shape a) a = data a.
Proof.
  intros Hwf. unfold broadcast_to. rewrite pad_shape_same.
  now apply broadcast_data_same.
Qed.

Lemma broadcast_to_scalar (sh : list nat) (q : Qc) :
  broadcast_to sh (scalar q) = repeat q (numel sh).
Proof.
  unfold broadcast_to. simpl. rewrite pad_shape_nil.
  apply broadcast_data_single.
Qed.

Lemma zip_with_length (A B C : Type) (op : A -> B -> C) (l : list A) (m : list B) :
  length l = length m -> length (zip_with op l m) = length l.
Proof.
  revert m; induction l as [|x l IH]; intros [|y m] H; simpl in *; try discriminate; auto.
Qed.

Lemma zip_with_repeat_r (A B C : Type) (op : A -> B -> C) (l : list A) (y : B) :
  zip_with op l (repeat y (length l)) = map (fun x => op x y) l.
Proof. induction l as [|x l IH]; simpl; [reflexivity|]. now rewrite IH. Qed.

(** Operands of one shape: the operator is applied position by position. *)
Lemma np_binop_same_shape (op : Qc -> Qc -> Qc) (a b : ndarray) :
  wf a -> wf b -> shape b = shape a ->
  np_binop op a b = Ok (mk_nd (shape a) (zip_with op (data a) (data b))).
Proof.
  intros Ha Hb Hs. unfold np_binop. rewrite Hs, broadcast_shapes_same.
  rewrite broadcast_to_same by assumption.
  rewrite <- Hs, broadcast_to_same by assumption.
  reflexivity.
Qed.

(** A 0-d right operand is combined with every element. *)
Lemma np_binop_scalar_r (op : Qc -> Qc -> Qc) (a : ndarray) (q : Qc) :
  wf a ->
  np_binop op a (scalar q) = Ok (mk_nd (shape a) (map (fun x => op x q) (data a))).
Proof.
  intros Ha. unfold np_binop. simpl. rewrite broadcast_shapes_nil_r.
  rewrite broadcast_to_same, broadcast_to_scalar by assumption.
  unfold wf, size in Ha. rewrite <- Ha. now rewrite zip_with_repeat_r.
Qed.

Lemma np_binop_wf (op : Qc -> Qc -> Qc) (a b : ndarray) :
  wf a -> wf b -> shape b = shape a ->
  wf (mk_nd (shape a) (zip_with op (data a) (data b))).
Proof.
  intros Ha Hb Hs. unfold wf, size in *. simpl.
  rewrite zip_with_length; congruence.
Qed.

(* ------------------------------------------------------------------ *)
(** ** Running the methods *)

Section Runs.

Variable G : Type.
Implicit Types (sys : DynamicalSystem G) (s : G) (x w v : ndarray).

(** One call of [dynamics]: the stored map is evaluated once, then the noise
    is added; the receiver is handed back as it was. *)
Lemma dynamics_run sys x w s :
  dynamics x w (mk_world sys s) =
  match f sys x s with
  | (Ok r, s') => (np_add r w, mk_world sys s')
  | (Fail e, s') => (Fail e, mk_world sys s')
  end.
Proof.
  unfold dynamics, bind, attr, call, liftO; simpl.
  destruct (f sys x s) as [[r|e] s']; reflexivity.
Qed.

Lemma measurements_run sys x v s :
  measurements x v (mk_world sys s) =
  match g sys x s with
  | (Ok r, s') => (np_add r v, mk_world sys s')
  | (Fail e, s') => (Fail e, mk_world sys s')
  end.
Proof.
  unfold measurements, bind, attr, call, liftO; simpl.
  destruct (g sys x s) as [[r|e] s']; reflexivity.
Qed.

Lemma sample_initial_state_run sys (count : nat) s :
  sample_initial_state count (mk_world sys s) =
  match rvs (dist_X sys) count s with
  | (Ok raw, s') => (np_reshape raw [count; nx sys], mk_world sys s')
  | (Fail e, s') => (Fail e, mk_world sys s')
  end.
Proof.
  unfold sample_initial_state, bind, attr, call, liftO; simpl.
  destruct (rvs (dist_X sys) count s) as [[raw|e] s']; reflexivity.
Qed.

End Runs.

(** *** Arithmetic on elements *)

Lemma zip_plus_zero (d : list Qc) :
  zip_with Qcplus d (repeat 0%Qc (length d)) = d.
Proof.
  rewrite zip_with_repeat_r. rewrite <- (map_id d) at 2.
  apply map_ext; intros q; ring.
Qed.

Lemma np_add_zeros (r : ndarray) : wf r -> np_add r (zeros (shape r)) = Ok r.
Proof.
  intros Hr. unfold np_add.
  rewrite np_binop_same_shape; auto.
  - simpl. unfold wf, size in Hr. rewrite <- Hr, zip_plus_zero. now destruct r.
  - unfold wf, size, zeros; simpl. apply repeat_length.
Qed.

Lemma np_add_scalar_zero (r : ndarray) : wf r -> np_add r (scalar 0%Qc) = Ok r.
Proof.
  intros Hr. unfold np_add. rewrite np_binop_scalar_r by assumption.
  replace (map (fun x => (x + 0)%Qc) (data r)) with (data r).
  - now destruct r.
  - rewrite <- (map_id (data r)) at 1. apply map_ext; intros q; ring.
Qed.

(* ------------------------------------------------------------------ *)
(** ** Additive injection of the noise *)

Section Additive.

Variable G : Type.
Implicit Types (sys : DynamicalSystem G) (s : G) (x w v r : ndarray).

(** C2.  Whenever the stored transition map returns [r] at [x],
    [dynamics(x, w)] returns [r + w]: the NumPy sum when the operands are
    addable, which for operands of one shape is the position-by-position sum;
    with a zero noise vector (or the 0-d zero) it returns [r] itself.  The
    same holds of [measurements] and the observation map. *)
Theorem dynamics_measurements_additive sys x s r s' ro so' :
  f sys x s = (Ok r, s') ->
  g sys x s = (Ok ro, so') ->
  (forall w,
      dynamics x w (mk_world sys s) = (np_add r w, mk_world sys s') /\
      measurements x w (mk_world sys s) = (np_add ro w, mk_world sys so'))
  /\ (forall w, wf r -> wf w -> shape w = shape r ->
      dynamics x w (mk_world sys s) =
      (Ok (mk_nd (shape r) (zip_with Qcplus (data r) (data w))), mk_world sys s'))
  /\ (forall v, wf ro -> wf v -> shape v = shape ro ->
      measurements x v (mk_world sys s) =
      (Ok (mk_nd (shape ro) (zip_with Qcplus (data ro) (data v))), mk_world sys so'))
  /\ (wf r ->
      dynamics x (zeros (shape r)) (mk_world sys s) = (Ok r, mk_world sys s') /\
      dynamics x (scalar 0%Qc) (mk_world sys s) = (Ok r, mk_world sys s'))
  /\ (wf ro ->
      measurements x (zeros (shape ro)) (mk_world sys s) = (Ok ro, mk_world sys so') /\
      measurements x (scalar 0%Qc) (mk_world sys s) = (Ok ro, mk_world sys so')).
Proof.
  intros Hf Hg.
  assert (Hd : forall w, dynamics x w (mk_world sys s) = (np_add r w, mk_world sys s'))
    by (intros w; now rewrite dynamics_run, Hf).
  assert (Hm : forall v, measurements x v (mk_world sys s) = (np_add ro v, mk_world sys so'))
    by (intros v; now rewrite measurements_run, Hg).
  repeat split; intros.
  - apply Hd.
  - apply Hm.
  - rewrite Hd. unfold np_add. now rewrite np_binop_same_shape.
  - rewrite Hm. unfold np_add. now rewrite np_binop_same_shape.
  - now rewrite Hd, np_add_zeros.
  - now rewrite Hd, np_add_scalar_zero.
  - now rewrite Hm, np_add_zeros.
  - now rewrite Hm, np_add_scalar_zero.
Qed.

(** C5, as the code has it.  Let [r1] and [r2] be the values which the
    transition map returns at [x] in the two calls, and let the noise vectors
    [w1], [w2] have their shape.  Then [dynamics(x, w1) - dynamics(x, w2)] is
    the array of that shape which holds, position by position,
    [(r1_i + w1_i) - (r2_i + w2_i)]: each call adds its noise to the value
    the map returned in that call, and the subtraction meets the two sums. *)
Theorem dynamics_difference sys x w1 w2 r1 r2 s1 s1' s2 s2' :
  f sys x s1 = (Ok r1, s1') ->
  f sys x s2 = (Ok r2, s2') ->
  wf r1 -> wf r2 -> wf w1 -> wf w2 ->
  shape r2 = shape r1 -> shape w1 = shape r1 -> shape w2 = shape r1 ->
  exists d1 d2,
    dynamics x w1 (mk_world sys s1) = (Ok d1, mk_world sys s1') /\
    dynamics x w2 (mk_world sys s2) = (Ok d2, mk_world sys s2') /\
    np_sub d1 d2 =
    Ok (mk_nd (shape r1)
          (zip_with Qcminus (zip_with Qcplus (data r1) (data w1))
                            (zip_with Qcplus (data r2) (data w2)))).
Proof.
  intros Hf1 Hf2 Hr1 Hr2 Hw1 Hw2 Hs Hs1 Hs2.
  exists (mk_nd (shape r1) (zip_with Qcplus (data r1) (data w1))),
         (mk_nd (shape r1) (zip_with Qcplus (data r2) (data w2))).
  repeat split.
  - rewrite dynamics_run, Hf1. unfold np_add. now rewrite np_binop_same_shape.
  - rewrite dynamics_run, Hf2. unfold np_add.
    rewrite np_binop_same_shape by congruence. now rewrite Hs.
  - unfold np_sub. rewrite np_binop_same_shape; [reflexivity | | | reflexivity].
    + now apply np_binop_wf.
    + rewrite <- Hs. apply np_binop_wf; congruence.
Qed.

(** C10.  [dynamics] and [measurements] consult the two stored maps and
    nothing else of the receiver: systems with the same maps give the same
    result and leave the generator in the same state, whatever their
    dimensions and distributions.  No length is compared with [nx] or [ny]:
    the call succeeds as soon as the map returns and the sum is defined. *)
Theorem dynamics_measurements_depend_on_maps_only :
  (forall sys1 sys2 x w s,
      f sys1 = f sys2 -> g sys1 = g sys2 ->
      fst (dynamics x w (mk_world sys1 s)) = fst (dynamics x w (mk_world sys2 s)) /\
      rng (snd (dynamics x w (mk_world sys1 s))) =
      rng (snd (dynamics x w (mk_world sys2 s))) /\
      fst (measurements x w (mk_world sys1 s)) =
      fst (measurements x w (mk_world sys2 s)) /\
      rng (snd (measurements x w (mk_world sys1 s))) =
      rng (snd (measurements x w (mk_world sys2 s))))
  /\ (forall n m h k dX dD dO x w s r s' v,
      h x s = (Ok r, s') -> np_add r w = Ok v ->
      fst (dynamics x w (mk_world (mk_system n m h k dX dD dO) s)) = Ok v)
  /\ (forall n m h k dX dD dO x w s r s' v,
      k x s = (Ok r, s') -> np_add r w = Ok v ->
      fst (measurements x w (mk_world (mk_system n m h k dX dD dO) s)) = Ok v).
Proof.
  repeat split; intros.
  - rewrite !dynamics_run. rewrite H.
    destruct (f sys2 x s) as [[r|e] s']; reflexivity.
  - rewrite !dynamics_run. rewrite H.
    destruct (f sys2 x s) as [[r|e] s']; reflexivity.
  - rewrite !measurements_run. rewrite H0.
    destruct (g sys2 x s) as [[r|e] s']; reflexivity.
  - rewrite !measurements_run. rewrite H0.
    destruct (g sys2 x s) as [[r|e] s']; reflexivity.
  - rewrite dynamics_run. simpl. rewrite H. simpl. assumption.
  - rewrite measurements_run. simpl. rewrite H. simpl. assumption.
Qed.

End Additive.

(* ------------------------------------------------------------------ *)
(** ** Sampling initial states *)

Section Sampling.

Variable G : Type.
Implicit Types (sys : DynamicalSystem G) (s : G) (raw : ndarray).

Lemma numel_pair (a b : nat) : numel [a; b] = a * b.
Proof. simpl. lia. Qed.

(** C4.  When the initial-state distribution hands back [raw] for [count]
    samples, [sample_initial_state(count)] returns the elements of [raw]
    arranged in [count] rows and [nx] columns if [raw] holds [count * nx]
    elements, and raises the reshape error if it holds any other number; for
    [count = 0] and an empty [raw] the result is the array of no rows. *)
Theorem sample_initial_state_shape sys (count : nat) s raw s' :
  rvs (dist_X sys) count s = (Ok raw, s') ->
  (size raw = count * nx sys ->
     exists out,
       sample_initial_state count (mk_world sys s) = (Ok out, mk_world sys s') /\
       shape out = [count; nx sys] /\ data out = data raw /\
       (wf raw -> wf out))
  /\ (size raw <> count * nx sys ->
     sample_initial_state count (mk_world sys s) =
     (Fail ReshapeError, mk_world sys s'))
  /\ (count = 0 -> size raw = 0 ->
     sample_initial_state count (mk_world sys s) =
     (Ok (mk_nd [0; nx sys] (data raw)), mk_world sys s')).
Proof.
  intros Hrvs.
  assert (Hrun : sample_initial_state count (mk_world sys s) =
                 (np_reshape raw [count; nx sys], mk_world sys s'))
    by now rewrite sample_initial_state_run, Hrvs.
  rewrite Hrun. unfold np_reshape. rewrite numel_pair.
  repeat split.
  - intros Hsz. exists (mk_nd [count; nx sys] (data raw)).
    rewrite <- Hsz, Nat.eqb_refl. repeat split.
    unfold wf, size; simpl. intros ->. unfold size in Hsz. lia.
  - intros Hsz. now apply Nat.eqb_neq in Hsz as ->.
  - intros -> ->. reflexivity.
Qed.

End Sampling.

(* ------------------------------------------------------------------ *)
(** ** The receiver is never written *)

Section Frame.

Variable G : Type.

Lemma preserves_attr (A : Type) (name : DynamicalSystem G -> A) :
  preserves_self (attr name).
Proof. intros w; reflexivity. Qed.

Lemma preserves_call (A : Type) (m : M G A) : preserves_self (call m).
Proof. intros w; unfold call. now destruct (m (rng w)). Qed.

Lemma preserves_liftO (A : Type) (o : outcome A) :
  preserves_self (liftO (S := world G) o).
Proof. intros w; reflexivity. Qed.

Lemma preserves_bind (A B : Type) (m : Obj G A) (k : A -> Obj G B) :
  preserves_self m -> (forall a, preserves_self (k a)) ->
  preserves_self (bind m k).
Proof.
  intros Hm Hk w. unfold bind. specialize (Hm w).
  destruct (m w) as [[a|e] w']; simpl in *; [|assumption].
  now rewrite Hk.
Qed.

Create HintDb frame.
#[local] Hint Resolve preserves_attr preserves_call preserves_liftO preserves_bind
  : frame.

Lemma preserves_invoke (c : method_call) : preserves_self (invoke (G := G) c).
Proof.
  destruct c; unfold invoke, dynamics, measurements, sample_initial_state;
    auto 10 with frame.
Qed.

Lemma run_calls_self (cs : list method_call) (w : world G) :
  self (run_calls cs w) = self w.
Proof.
  revert w; induction cs as [|c cs IH]; intros w; simpl; [reflexivity|].
  now rewrite IH, preserves_invoke.
Qed.

(** An assignment to an attribute is what the property excludes. *)
Lemma set_attr_writes (sys : DynamicalSystem G) (s : G) :
  nx (self (snd (set_attr
        (fun o => mk_system (S (nx o)) (ny o) (f o) (g o)
                    (dist_X o) (dist_dyn o) (dist_obs o))
        (mk_world sys s)))) <> nx sys.
Proof. simpl. lia. Qed.

(** C8.  After any sequence of calls of [dynamics], [measurements] and
    [sample_initial_state], failed ones included, each of the seven
    attributes has the value it was constructed with. *)
Theorem methods_leave_attributes (sys : DynamicalSystem G) (s : G)
    (cs : list method_call) :
  let sys' := self (run_calls cs (mk_world sys s)) in
  nx sys' = nx sys /\ ny sys' = ny sys /\
  f sys' = f sys /\ g sys' = g sys /\
  dist_X sys' = dist_X sys /\ dist_dyn sys' = dist_dyn sys /\
  dist_obs sys' = dist_obs sys.
Proof.
  intros sys'. subst sys'. rewrite run_calls_self. simpl.
  repeat split.
Qed.

(** C9.  The system built by [create_additive_system] stores the two
    Monte-Carlo maps derived from the raw functions, and the two dimensions
    and three distributions exactly as they were passed. *)
Theorem create_additive_system_fields (n m : nat)
    (h k : ndarray -> ndarray -> M G ndarray)
    (dX dD dO : rv_continuous G) (N_samples : nat) :
  let sys := create_additive_system n m h k dX dD dO N_samples in
  f sys = monte_carlo_mean h dD N_samples /\
  g sys = monte_carlo_mean k dO N_samples /\
  dist_X sys = dX /\ dist_dyn sys = dD /\ dist_obs sys = dO /\
  nx sys = n /\ ny sys = m.
Proof. simpl. repeat split. Qed.

End Frame.

(* ------------------------------------------------------------------ *)
(** ** The Monte-Carlo maps *)

Section MonteCarlo.

Variable G : Type.
Implicit Types (s : G) (x w ws : ndarray) (dist : rv_continuous G).

Lemma mapM_pure (A B : Type) (k : A -> outcome B) (items : list A) s :
  mapM (fun a => liftO (S := G) (k a)) items s = (traverse k items, s).
Proof.
  induction items as [|a rest IH]; simpl; [reflexivity|].
  unfold bind, liftO at 1. destruct (k a) as [v|e]; [|reflexivity].
  rewrite IH. now destruct (traverse k rest).
Qed.

(** Evaluating the list comprehension returns one value per sample, each
    obtained by one evaluation of the raw function at that sample. *)
Lemma mapM_Forall2 (A B : Type) (h : A -> M G B) (items : list A) s vals s' :
  mapM h items s = (Ok vals, s') ->
  Forall2 (fun a b => exists sa sb, h a sa = (Ok b, sb)) items vals.
Proof.
  revert s vals s'; induction items as [|a rest IH]; intros s vals s'; simpl.
  - unfold ret. intros [= <- _]. constructor.
  - unfold bind at 1. destruct (h a s) as [[v|e] s1] eqn:Hw; [|discriminate].
    unfold bind at 1. destruct (mapM h rest s1) as [[vs|e] s2] eqn:Hr; [|discriminate].
    unfold ret. intros [= <- _]. constructor; eauto.
Qed.

(** One call of a derived map whose raw function has no effect: the samples
    are requested from the distribution during the call. *)
Lemma monte_carlo_mean_pure (k : ndarray -> ndarray -> outcome ndarray)
    dist (N_samples : nat) x s :
  monte_carlo_mean (pure_raw k) dist N_samples x s =
  match rvs dist N_samples s with
  | (Ok ws, s') => (mean_over k x ws, s')
  | (Fail e, s') => (Fail e, s')
  end.
Proof.
  unfold monte_carlo_mean, mean_over, pure_raw. unfold bind at 1.
  destruct (rvs dist N_samples s) as [[ws|e] s']; [|reflexivity].
  unfold bind at 1, liftO at 1. destruct (np_iter ws) as [items|e]; [|reflexivity].
  unfold bind. rewrite mapM_pure.
  destruct (traverse (k x) items); reflexivity.
Qed.

End MonteCarlo.

(** *** The scalar mean *)

Lemma same_shape_cons (v : ndarray) (rest : list ndarray) :
  Forall (fun u => shape u = shape v) rest -> same_shape (v :: rest) = true.
Proof.
  intros H. simpl. apply forallb_forall. intros u Hu.
  rewrite Forall_forall in H. specialize (H u Hu).
  now destruct (shape_eq_dec (shape u) (shape v)).
Qed.

(** With at least one element to average, [np.mean] returns the 0-d array
    holding the sum of all elements over their number. *)
Lemma np_mean_ok (vals : list ndarray) :
  same_shape vals = true -> flat_map data vals <> [] ->
  np_mean vals =
  Ok (scalar (sum (flat_map data vals) / Qc_of_nat (length (flat_map data vals)))%Qc).
Proof.
  intros Hs Hne. unfold np_mean. rewrite Hs.
  destruct (flat_map data vals) as [|q xs] eqn:E; [contradiction|].
  reflexivity.
Qed.

Section DerivedMaps.

Variable G : Type.
Implicit Types (s : G) (x ws : ndarray) (dist : rv_continuous G).

(** C3.  A derived map asks the distribution for the samples, evaluates the
    raw function once at each of them, and returns one 0-d array: the sum of
    every element of every result over the number of those elements.  The
    observation map is derived the same way. *)
Theorem derived_map_scalar_mean (n m : nat)
    (h k : ndarray -> ndarray -> M G ndarray) (dX dist dO : rv_continuous G)
    (N_samples : nat) x s ws s1 items vals s2 :
  rvs dist N_samples s = (Ok ws, s1) ->
  np_iter ws = Ok items ->
  mapM (h x) items s1 = (Ok vals, s2) ->
  same_shape vals = true ->
  flat_map data vals <> [] ->
  let xs := flat_map data vals in
  let mean := scalar (sum xs / Qc_of_nat (length xs))%Qc in
  f (create_additive_system n m h k dX dist dO N_samples) x s = (Ok mean, s2) /\
  g (create_additive_system n m k h dX dO dist N_samples) x s = (Ok mean, s2) /\
  shape mean = [] /\
  Forall2 (fun w v => exists sa sb, h x w sa = (Ok v, sb)) items vals.
Proof.
  intros Hrvs Hiter Hmap Hsame Hne xs mean.
  assert (Hrun : monte_carlo_mean h dist N_samples x s = (Ok mean, s2)).
  { unfold monte_carlo_mean. unfold bind at 1. rewrite Hrvs.
    unfold bind at 1, liftO at 1. rewrite Hiter.
    unfold bind, liftO. rewrite Hmap. now rewrite np_mean_ok. }
  repeat split; try exact Hrun.
  eapply mapM_Forall2; eassumption.
Qed.

(** C1, as the code has it.  Every call of a derived map asks the distribution
    for its samples at that call, in the generator state in which the call is
    made, and returns the mean over the samples of that draw; this holds for
    every raw function and every distribution, and nothing is drawn when the
    system is built.  For a raw function without effect, two calls at one
    state, successive ones included, return the same value whenever the
    distribution hands back the same samples in both. *)
Theorem derived_maps_draw_per_call (n m : nat)
    (h k : ndarray -> ndarray -> M G ndarray) (dX dD dO : rv_continuous G)
    (N_samples : nat) x s :
  let sys := create_additive_system n m h k dX dD dO N_samples in
  f sys x s =
    match rvs dD N_samples s with
    | (Ok ws, s') => mean_of_draw h x ws s'
    | (Fail e, s') => (Fail e, s')
    end /\
  g sys x s =
    match rvs dO N_samples s with
    | (Ok vs, s') => mean_of_draw k x vs s'
    | (Fail e, s') => (Fail e, s')
    end /\
  (forall c s', h = pure_raw c ->
     fst (rvs dD N_samples s') = fst (rvs dD N_samples s) ->
     fst (f sys x s') = fst (f sys x s)) /\
  (forall c s', k = pure_raw c ->
     fst (rvs dO N_samples s') = fst (rvs dO N_samples s) ->
     fst (g sys x s') = fst (g sys x s)).
Proof.
  intros sys. subst sys. cbn [f g create_additive_system].
  assert (Hrun : forall h0 d s0,
             monte_carlo_mean h0 d N_samples x s0 =
             match rvs d N_samples s0 with
             | (Ok ws, s') => mean_of_draw h0 x ws s'
             | (Fail e, s') => (Fail e, s')
             end).
  { intros h0 d s0. unfold monte_carlo_mean, mean_of_draw. unfold bind at 1.
    destruct (rvs d N_samples s0) as [[ws|e] s']; reflexivity. }
  assert (Hpure : forall c d s0 s',
             fst (rvs d N_samples s') = fst (rvs d N_samples s0) ->
             fst (monte_carlo_mean (pure_raw c) d N_samples x s') =
             fst (monte_carlo_mean (pure_raw c) d N_samples x s0)).
  { intros c d s0 s' Hd. rewrite !monte_carlo_mean_pure.
    destruct (rvs d N_samples s') as [o' t'], (rvs d N_samples s0) as [o t].
    simpl in Hd. subst o'. now destruct o. }
  split; [apply Hrun|]. split; [apply Hrun|].
  split; intros c s' -> Hd; now apply Hpure.
Qed.

(** C6, as the code has it.  With the raw transition [x + w] and a noise
    distribution whose three draws are always [[1, 1, 1]], the derived
    transition map returns, for every non-empty state [x], one 0-d value:
    the sum of the elements of the three results [x + 1] over their number,
    three times the size of [x]; the array [x + 1] has the shape of [x]. *)
Theorem derived_transition_of_unit_draws (n m : nat)
    (k : ndarray -> ndarray -> M G ndarray) (dX dD dO : rv_continuous G) x s :
  let sys := create_additive_system n m (pure_raw np_add) k dX dD dO 3 in
  (forall s0, fst (rvs dD 3 s0) = Ok (vec [1; 1; 1]%Qc)) ->
  wf x -> size x <> 0 ->
  let y := mk_nd (shape x) (map (fun q => q + 1)%Qc (data x)) in
  let xs := data y ++ data y ++ data y in
  np_add x (scalar 1%Qc) = Ok y /\
  fst (f sys x s) = Ok (scalar (sum xs / Qc_of_nat (length xs))%Qc) /\
  length xs = 3 * size x.
Proof.
  intros sys Hdraw Hwf Hsz y xs.
  assert (Hy : np_add x (scalar 1%Qc) = Ok y)
    by (unfold np_add; now rewrite np_binop_scalar_r).
  assert (Hlen : length (data x) <> 0) by (unfold wf in Hwf; lia).
  split; [exact Hy|]. split.
  - subst sys. cbn [f create_additive_system]. rewrite monte_carlo_mean_pure.
    specialize (Hdraw s). destruct (rvs dD 3 s) as [o s']. simpl in Hdraw; subst o.
    simpl fst. unfold mean_over.
    change (np_iter (vec [1; 1; 1]%Qc))
      with (Ok [scalar 1%Qc; scalar 1%Qc; scalar 1%Qc]).
    cbn [traverse]. rewrite Hy.
    rewrite np_mean_ok.
    + cbn [flat_map]. now rewrite app_nil_r.
    + apply same_shape_cons. repeat constructor.
    + cbn [flat_map]. subst y. cbn [data].
      destruct (data x); [contradiction|discriminate].
  - subst xs y. cbn [data]. rewrite !length_app, !length_map.
    unfold wf in Hwf. lia.
Qed.

(** C7.  With [f = lambda x: x + 1] and [g = lambda x: 2*x] in a system of
    dimensions 1 and 1: [dynamics([5], [0.1])] is [[6.1]] and
    [measurements([5], [0])] is [[10]]. *)
Theorem unit_system_scenario (dX dD dO : rv_continuous G) s :
  let sys := mk_system 1 1
               (pure_map (fun x => np_add x (scalar 1%Qc)))
               (pure_map (fun x => np_mul (scalar (Q2Qc 2)) x))
               dX dD dO in
  dynamics (vec [Q2Qc 5]) (vec [Q2Qc (1 # 10)]) (mk_world sys s)
    = (Ok (vec [Q2Qc (61 # 10)]), mk_world sys s) /\
  measurements (vec [Q2Qc 5]) (vec [0%Qc]) (mk_world sys s)
    = (Ok (vec [Q2Qc 10]), mk_world sys s).
Proof.
  intros sys. subst sys. rewrite dynamics_run, measurements_run.
  unfold pure_map, liftO. split; qc_eq.
Qed.

End DerivedMaps.

(* ------------------------------------------------------------------ *)
(** ** The statements at concrete systems *)

(** The additive injection at [affine_system 1]: state [[5]], noise [[0.1]]. *)
Lemma dynamics_measurements_additive_witness :
  (f (affine_system 1 counter_dist) (vec [Q2Qc 5]) 0 = (Ok (vec [Q2Qc 6]), 0) /\
   g (affine_system 1 counter_dist) (vec [Q2Qc 5]) 0 = (Ok (vec [Q2Qc 10]), 0)) /\
  dynamics (vec [Q2Qc 5]) (vec [Q2Qc (1 # 10)])
    (mk_world (affine_system 1 counter_dist) 0)
  = (np_add (vec [Q2Qc 6]) (vec [Q2Qc (1 # 10)]),
     mk_world (affine_system 1 counter_dist) 0) /\
  measurements (vec [Q2Qc 5]) (zeros [1])
    (mk_world (affine_system 1 counter_dist) 0)
  = (Ok (vec [Q2Qc 10]), mk_world (affine_system 1 counter_dist) 0).
Proof.
  assert (Hf : f (affine_system 1 counter_dist) (vec [Q2Qc 5]) 0
               = (Ok (vec [Q2Qc 6]), 0)) by qc_eq.
  assert (Hg : g (affine_system 1 counter_dist) (vec [Q2Qc 5]) 0
               = (Ok (vec [Q2Qc 10]), 0)) by qc_eq.
  split; [split; assumption|].
  destruct (dynamics_measurements_additive _ _ _ Hf Hg)
    as (Hsum & _ & _ & _ & Hzero).
  split.
  - apply (Hsum (vec [Q2Qc (1 # 10)])).
  - apply Hzero. reflexivity.
Defined.

(** The difference of two successive noisy transitions of a re-sampling
    system: the map returns 0 in the first call and 1 in the second. *)
Lemma dynamics_difference_witness :
  (f resampling_system (scalar 0%Qc) 0 = (Ok (scalar 0%Qc), 1) /\
   f resampling_system (scalar 0%Qc) 1 = (Ok (scalar 1%Qc), 2)) /\
  exists d1 d2,
    dynamics (scalar 0%Qc) (scalar (Q2Qc 3)) (mk_world resampling_system 0)
      = (Ok d1, mk_world resampling_system 1) /\
    dynamics (scalar 0%Qc) (scalar 1%Qc) (mk_world resampling_system 1)
      = (Ok d2, mk_world resampling_system 2) /\
    np_sub d1 d2
      = Ok (mk_nd [] (zip_with Qcminus (zip_with Qcplus [0%Qc] [Q2Qc 3])
                                       (zip_with Qcplus [1%Qc] [1%Qc]))).
Proof.
  assert (H0 : f resampling_system (scalar 0%Qc) 0 = (Ok (scalar 0%Qc), 1))
    by qc_eq.
  assert (H1 : f resampling_system (scalar 0%Qc) 1 = (Ok (scalar 1%Qc), 2))
    by qc_eq.
  split; [split; assumption|].
  apply (@dynamics_difference nat resampling_system (scalar 0%Qc)
           (scalar (Q2Qc 3)) (scalar 1%Qc) (scalar 0%Qc) (scalar 1%Qc)
           0 1 1 2 H0 H1); reflexivity.
Defined.

#[local] Set Warnings "-inexact-float".

(** C5 fails on the code.  In binary64, with the map [x + 1] at the state
    [[5]] and the noises [[0.1]] and [[0.2]], the two results are [[6.1]] and
    [[6.2]], their difference is [[-0.10000000000000053]], and [w1 - w2] is
    [[-0.1]].  With the re-sampling map of [resampling_system], two
    successive calls at the state 0 with the noises 3 and 1 return 3 and 2,
    whose difference is 1, and [w1 - w2] is 2. *)
Lemma dynamics_difference_counterexample :
  (dynamics64 succ64 (vec64 [5%float]) (vec64 [0.1%float])
     = Ok (vec64 [6.1%float]) /\
   dynamics64 succ64 (vec64 [5%float]) (vec64 [0.2%float])
     = Ok (vec64 [6.2%float]) /\
   np_sub64 (vec64 [6.1%float]) (vec64 [6.2%float])
     = Ok (vec64 [(-0.10000000000000053)%float]) /\
   np_sub64 (vec64 [0.1%float]) (vec64 [0.2%float])
     = Ok (vec64 [(-0.1)%float]) /\
   np_all_equal64 (vec64 [(-0.10000000000000053)%float]) (vec64 [(-0.1)%float])
     = Ok false) /\
  (dynamics (scalar 0%Qc) (scalar (Q2Qc 3)) (mk_world resampling_system 0)
     = (Ok (scalar (Q2Qc 3)), mk_world resampling_system 1) /\
   dynamics (scalar 0%Qc) (scalar 1%Qc) (mk_world resampling_system 1)
     = (Ok (scalar (Q2Qc 2)), mk_world resampling_system 2) /\
   np_sub (scalar (Q2Qc 3)) (scalar (Q2Qc 2)) = Ok (scalar 1%Qc) /\
   np_sub (scalar (Q2Qc 3)) (scalar 1%Qc) = Ok (scalar (Q2Qc 2)) /\
   np_all_equal (scalar 1%Qc) (scalar (Q2Qc 2)) = Ok false).
Proof.
  split.
  - repeat split; vm_compute; reflexivity.
  - repeat split; try qc_eq.
Qed.

(** Dimension 1 is declared, vectors of three components are accepted. *)
Lemma dynamics_measurements_depend_on_maps_only_witness :
  (f (affine_system 1 counter_dist) = f (affine_system 4 (constant_dist 0%Qc)) /\
   g (affine_system 1 counter_dist) = g (affine_system 4 (constant_dist 0%Qc))) /\
  fst (dynamics (vec [Q2Qc 5]) (vec [Q2Qc 1])
         (mk_world (affine_system 1 counter_dist) 0))
  = fst (dynamics (vec [Q2Qc 5]) (vec [Q2Qc 1])
           (mk_world (affine_system 4 (constant_dist 0%Qc)) 0)) /\
  fst (dynamics (vec [Q2Qc 5; Q2Qc 6; Q2Qc 7]) (vec [Q2Qc 1; Q2Qc 1; Q2Qc 1])
         (mk_world (affine_system 1 counter_dist) 0))
  = Ok (vec [Q2Qc 7; Q2Qc 8; Q2Qc 9]).
Proof.
  split; [split; reflexivity|].
  destruct (dynamics_measurements_depend_on_maps_only nat)
    as (Hsame & Hdyn & _).
  split.
  - apply Hsame; reflexivity.
  - apply (Hdyn 1 1 _ _ _ _ _ (vec [Q2Qc 5; Q2Qc 6; Q2Qc 7])
             (vec [Q2Qc 1; Q2Qc 1; Q2Qc 1]) 0
             (vec [Q2Qc 6; Q2Qc 7; Q2Qc 8]) 0); qc_eq.
Defined.

(** Three initial states of two components from a distribution over pairs;
    the reshape error with a distribution over scalars; no sample at all. *)
Lemma sample_initial_state_shape_witness :
  (rvs (block_dist 2 0%Qc) 3 0 = (Ok (mk_nd [3; 2] (repeat 0%Qc 6)), 1) /\
   exists out,
     sample_initial_state 3 (mk_world (affine_system 2 (block_dist 2 0%Qc)) 0)
       = (Ok out, mk_world (affine_system 2 (block_dist 2 0%Qc)) 1) /\
     shape out = [3; 2] /\ data out = repeat 0%Qc 6) /\
  (rvs (constant_dist 0%Qc) 3 0 = (Ok (vec (repeat 0%Qc 3)), 1) /\
   sample_initial_state 3 (mk_world (affine_system 2 (constant_dist 0%Qc)) 0)
     = (Fail ReshapeError, mk_world (affine_system 2 (constant_dist 0%Qc)) 1)) /\
  (rvs (constant_dist 0%Qc) 0 0 = (Ok (vec []), 1) /\
   sample_initial_state 0 (mk_world (affine_system 2 (constant_dist 0%Qc)) 0)
     = (Ok (mk_nd [0; 2] []), mk_world (affine_system 2 (constant_dist 0%Qc)) 1)).
Proof.
  split; [split; [reflexivity|] | split; (split; [reflexivity|])].
  - destruct (sample_initial_state_shape
                (affine_system 2 (block_dist 2 0%Qc)) 3 0
                (raw := mk_nd [3; 2] (repeat 0%Qc 6)) (s' := 1) eq_refl)
      as (Hok & _ & _).
    destruct (Hok eq_refl) as (out & Hrun & Hshape & Hdata & _).
    exists out. repeat split; assumption.
  - destruct (sample_initial_state_shape
                (affine_system 2 (constant_dist 0%Qc)) 3 0
                (raw := vec (repeat 0%Qc 3)) (s' := 1) eq_refl)
      as (_ & Herr & _).
    apply Herr. vm_compute. discriminate.
  - destruct (sample_initial_state_shape
                (affine_system 2 (constant_dist 0%Qc)) 0 0
                (raw := vec []) (s' := 1) eq_refl)
      as (_ & _ & Hempty).
    apply Hempty; reflexivity.
Defined.

(** The derived transition map of [unit_draw_system] at the state [[0, 2]]:
    three samples, three values [[1, 3]], one scalar. *)
Lemma derived_map_scalar_mean_witness :
  (rvs (constant_dist 1%Qc) 3 0 = (Ok (vec [1; 1; 1]%Qc), 1) /\
   np_iter (vec [1; 1; 1]%Qc) = Ok [scalar 1%Qc; scalar 1%Qc; scalar 1%Qc] /\
   mapM (add_noise (vec [0%Qc; Q2Qc 2]))
     [scalar 1%Qc; scalar 1%Qc; scalar 1%Qc] 1
   = (Ok [vec [(0 + 1)%Qc; (Q2Qc 2 + 1)%Qc]; vec [(0 + 1)%Qc; (Q2Qc 2 + 1)%Qc];
          vec [(0 + 1)%Qc; (Q2Qc 2 + 1)%Qc]], 1)) /\
  f unit_draw_system (vec [0%Qc; Q2Qc 2]) 0
  = (Ok (scalar (sum [(0 + 1)%Qc; (Q2Qc 2 + 1)%Qc; (0 + 1)%Qc; (Q2Qc 2 + 1)%Qc;
                      (0 + 1)%Qc; (Q2Qc 2 + 1)%Qc] / Qc_of_nat 6)%Qc), 1) /\
  (sum [(0 + 1)%Qc; (Q2Qc 2 + 1)%Qc; (0 + 1)%Qc; (Q2Qc 2 + 1)%Qc;
        (0 + 1)%Qc; (Q2Qc 2 + 1)%Qc] / Qc_of_nat 6)%Qc = Q2Qc 2.
Proof.
  assert (Hrvs : rvs (constant_dist 1%Qc) 3 0 = (Ok (vec [1; 1; 1]%Qc), 1))
    by reflexivity.
  assert (Hiter : np_iter (vec [1; 1; 1]%Qc)
                  = Ok [scalar 1%Qc; scalar 1%Qc; scalar 1%Qc]) by reflexivity.
  assert (Hmap : mapM (add_noise (vec [0%Qc; Q2Qc 2]))
                   [scalar 1%Qc; scalar 1%Qc; scalar 1%Qc] 1
                 = (Ok [vec [(0 + 1)%Qc; (Q2Qc 2 + 1)%Qc];
                        vec [(0 + 1)%Qc; (Q2Qc 2 + 1)%Qc];
                        vec [(0 + 1)%Qc; (Q2Qc 2 + 1)%Qc]], 1)) by reflexivity.
  split; [repeat split; assumption|]. split.
  - apply (@derived_map_scalar_mean nat 1 1 add_noise add_noise
             (constant_dist 0%Qc) (constant_dist 1%Qc) (constant_dist 1%Qc) 3
             _ _ _ _ _ _ _ Hrvs Hiter Hmap); [reflexivity|discriminate].
  - apply Qc_is_canon. reflexivity.
Defined.

(** A call over a varying distribution, in generator state 1, and two
    successive calls over a degenerate one. *)
Lemma derived_maps_draw_per_call_witness :
  f resampling_system (scalar 0%Qc) 1
  = mean_of_draw add_noise (scalar 0%Qc) (vec (repeat (Qc_of_nat 1) 3)) 2 /\
  fst (rvs (constant_dist 1%Qc) 3 (snd (f unit_draw_system (scalar 0%Qc) 0)))
  = fst (rvs (constant_dist 1%Qc) 3 0) /\
  fst (f unit_draw_system (scalar 0%Qc) (snd (f unit_draw_system (scalar 0%Qc) 0)))
  = fst (f unit_draw_system (scalar 0%Qc) 0).
Proof.
  split.
  - destruct (@derived_maps_draw_per_call nat 1 1 add_noise add_noise
                (constant_dist 0%Qc) counter_dist counter_dist 3
                (scalar 0%Qc) 1) as (Hf & _).
    exact Hf.
  - split; [reflexivity|].
    destruct (@derived_maps_draw_per_call nat 1 1 add_noise add_noise
                (constant_dist 0%Qc) (constant_dist 1%Qc) (constant_dist 1%Qc) 3
                (scalar 0%Qc) 0) as (_ & _ & Hrep & _).
    apply (Hrep np_add (snd (f unit_draw_system (scalar 0%Qc) 0)) eq_refl eq_refl).
Defined.

(** C1 fails on the code: over a distribution whose draws depend on the
    generator, the first call of the derived transition map at the state 0
    returns 0 and the next call at the same state returns 1. *)
Lemma derived_map_not_repeatable :
  fst (f resampling_system (scalar 0%Qc) 0) = Ok (scalar 0%Qc) /\
  fst (f resampling_system (scalar 0%Qc)
         (snd (f resampling_system (scalar 0%Qc) 0))) = Ok (scalar 1%Qc) /\
  fst (dynamics (scalar 0%Qc) (scalar 0%Qc) (mk_world resampling_system 0))
    = Ok (scalar 0%Qc) /\
  fst (dynamics (scalar 0%Qc) (scalar 0%Qc)
         (snd (dynamics (scalar 0%Qc) (scalar 0%Qc) (mk_world resampling_system 0))))
    = Ok (scalar 1%Qc) /\
  ~ repeatable (f resampling_system).
Proof.
  split; [qc_eq|]. split; [qc_eq|]. split; [qc_eq|]. split; [qc_eq|].
  intros H. specialize (H (scalar 0%Qc) 0).
  vm_compute in H. discriminate H.
Qed.

(** The state [[0, 2]] of [unit_draw_system]: six elements enter the mean. *)
Lemma derived_transition_of_unit_draws_witness :
  ((forall s0, fst (rvs (constant_dist 1%Qc) 3 s0) = Ok (vec [1; 1; 1]%Qc)) /\
   wf (vec [0%Qc; Q2Qc 2]) /\ size (vec [0%Qc; Q2Qc 2]) <> 0) /\
  np_add (vec [0%Qc; Q2Qc 2]) (scalar 1%Qc)
  = Ok (vec [(0 + 1)%Qc; (Q2Qc 2 + 1)%Qc]) /\
  fst (f unit_draw_system (vec [0%Qc; Q2Qc 2]) 0)
  = Ok (scalar (sum [(0 + 1)%Qc; (Q2Qc 2 + 1)%Qc; (0 + 1)%Qc; (Q2Qc 2 + 1)%Qc;
                     (0 + 1)%Qc; (Q2Qc 2 + 1)%Qc] / Qc_of_nat 6)%Qc).
Proof.
  assert (Hdraw : forall s0, fst (rvs (constant_dist 1%Qc) 3 s0)
                             = Ok (vec [1; 1; 1]%Qc)) by reflexivity.
  assert (Hsz : size (vec [0%Qc; Q2Qc 2]) <> 0) by discriminate.
  split; [split; [exact Hdraw | split; [reflexivity | exact Hsz]]|].
  destruct (@derived_transition_of_unit_draws nat 1 1 add_noise
              (constant_dist 0%Qc) (constant_dist 1%Qc) (constant_dist 1%Qc)
              (vec [0%Qc; Q2Qc 2]) 0 Hdraw eq_refl Hsz) as (Hy & Hmean & _).
  split; [exact Hy | exact Hmean].
Defined.

(** C6 fails on the code: at the state [[0, 2]] the derived transition map
    returns the 0-d array 2, while [x + 1] is [[1, 3]]; the two agree at no
    position. *)
Lemma derived_transition_collapses_vector :
  fst (f unit_draw_system (vec [0%Qc; Q2Qc 2]) 0) = Ok (scalar (Q2Qc 2)) /\
  np_add (vec [0%Qc; Q2Qc 2]) (scalar 1%Qc) = Ok (vec [1%Qc; Q2Qc 3]) /\
  np_all_equal (scalar (Q2Qc 2)) (vec [1%Qc; Q2Qc 3]) = Ok false /\
  ~ (forall x s, fst (f unit_draw_system x s) = np_add x (scalar 1%Qc)).
Proof.
  split; [qc_eq|]. split; [qc_eq|]. split; [reflexivity|].
  intros H. specialize (H (vec [0%Qc; Q2Qc 2]) 0).
  vm_compute in H. discriminate H.
Qed.

(** The rounding of the mean in binary64, at the 0-d state 0.4 of the same
    scenario: [x + 1] is 1.4, the three equal results add up to
    4.1999999999999993 in whichever order they are added, and a third of
    that is 1.3999999999999997, which is not [x + 1]. *)
Remark mean_of_three_equal_results_rounds :
  succ64 (mk_nd64 [] [0.4%float]) = Ok (mk_nd64 [] [1.4%float]) /\
  np_add64 (mk_nd64 [] [1.4%float]) (mk_nd64 [] [1.4%float])
    = Ok (mk_nd64 [] [2.8%float]) /\
  np_add64 (mk_nd64 [] [2.8%float]) (mk_nd64 [] [1.4%float])
    = Ok (mk_nd64 [] [4.1999999999999993%float]) /\
  np_add64 (mk_nd64 [] [1.4%float]) (mk_nd64 [] [2.8%float])
    = Ok (mk_nd64 [] [4.1999999999999993%float]) /\
  np_div64 (mk_nd64 [] [4.1999999999999993%float]) (mk_nd64 [] [3%float])
    = Ok (mk_nd64 [] [1.3999999999999997%float]) /\
  np_all_equal64 (mk_nd64 [] [1.3999999999999997%float]) (mk_nd64 [] [1.4%float])
    = Ok false.
Proof. repeat split; vm_compute; reflexivity. Qed.

(* ------------------------------------------------------------------ *)
(** ** Further properties of the methods *)

(** *** More facts about arrays *)

Lemma zip_with_repeat_l (A B C : Type) (op : A -> B -> C) (x : A) (m : list B) :
  zip_with op (repeat x (length m)) m = map (fun y => op x y) m.
Proof. induction m as [|y m IH]; simpl; [reflexivity|]. now rewrite IH. Qed.

(** A 0-d left operand is combined with every element of the right one. *)
Lemma np_binop_scalar_l (op : Qc -> Qc -> Qc) (q : Qc) (b : ndarray) :
  wf b ->
  np_binop op (scalar q) b = Ok (mk_nd (shape b) (map (fun y => op q y) (data b))).
Proof.
  intros Hb. unfold np_binop. cbn [shape scalar]. rewrite broadcast_shapes_nil_l.
  rewrite broadcast_to_same, broadcast_to_scalar by assumption.
  unfold wf, size in Hb. rewrite <- Hb. now rewrite zip_with_repeat_l.
Qed.

(** Two vectors of different lengths, neither of length one, do not broadcast. *)
Lemma broadcast_shapes_vec_mismatch (n m : nat) :
  n <> m -> n <> 1 -> m <> 1 -> broadcast_shapes [n] [m] = None.
Proof.
  intros Hnm Hn Hm. unfold broadcast_shapes. cbn [rev app bshape_rev].
  apply Nat.eqb_neq in Hnm, Hn, Hm. now rewrite Hnm, Hn, Hm.
Qed.

Lemma broadcast_shapes_vec_one (n : nat) : broadcast_shapes [n] [1] = Some [n].
Proof.
  unfold broadcast_shapes. cbn [rev app bshape_rev].
  destruct (Nat.eqb_spec n 1) as [->|Hn]; [reflexivity|].
  rewrite Nat.eqb_refl. reflexivity.
Qed.

(** A vector combined with a one-element vector: the single element meets
    every component. *)
Lemma np_binop_vec_one (op : Qc -> Qc -> Qc) (a : ndarray) (n : nat) (q : Qc) :
  wf a -> shape a = [n] ->
  np_binop op a (vec [q]) = Ok (mk_nd [n] (map (fun x => op x q) (data a))).
Proof.
  intros Ha Hs. unfold np_binop, vec. rewrite Hs. cbn [shape length].
  rewrite broadcast_shapes_vec_one.
  replace (broadcast_to [n] a) with (data a)
    by (rewrite <- Hs; symmetry; now apply broadcast_to_same).
  replace (broadcast_to [n] (mk_nd [1] [q])) with (repeat q (numel [n]))
    by (symmetry; apply (broadcast_data_single [n] q)).
  unfold wf, size in Ha. rewrite Hs in Ha. rewrite <- Ha.
  now rewrite zip_with_repeat_r.
Qed.

Lemma chunks_Forall_length (A : Type) (k n : nat) (l : list A) :
  length l = n * k -> Forall (fun c => length c = k) (chunks k n l).
Proof.
  revert l; induction n as [|n IH]; intros l Hl; simpl in *; constructor.
  - rewrite length_firstn. lia.
  - apply IH. rewrite length_skipn. lia.
Qed.

Lemma chunks_concat (A : Type) (k n : nat) (l : list A) :
  length l = n * k -> concat (chunks k n l) = l.
Proof.
  intros Hl.
  rewrite <- (@flat_map_chunks A (fun c => c) k n l Hl (fun c _ => eq_refl)) at 2.
  now rewrite flat_map_concat_map, map_id.
Qed.

(** *** Noise of another length *)

Section NoiseShapes.

Variable G : Type.
Implicit Types (sys : DynamicalSystem G) (s : G) (x w v r : ndarray).

(** X1.  When the stored map returns a vector of [n] components and the noise
    has [m] components, with [n] and [m] different and neither equal to one,
    [dynamics] and [measurements] raise NumPy's broadcast error; the
    generator is left where the map left it. *)
Theorem noise_length_mismatch_raises sys x w s r s' ro so' (n m k : nat) :
  f sys x s = (Ok r, s') -> g sys x s = (Ok ro, so') ->
  shape w = [m] -> m <> 1 ->
  (shape r = [n] -> n <> m -> n <> 1 ->
     dynamics x w (mk_world sys s) = (Fail BroadcastError, mk_world sys s'))
  /\ (shape ro = [k] -> k <> m -> k <> 1 ->
     measurements x w (mk_world sys s) = (Fail BroadcastError, mk_world sys so')).
Proof.
  intros Hf Hg Hw Hm. split; intros Hr Hne H1.
  - rewrite dynamics_run, Hf. unfold np_add, np_binop.
    now rewrite Hr, Hw, broadcast_shapes_vec_mismatch.
  - rewrite measurements_run, Hg. unfold np_add, np_binop.
    now rewrite Hr, Hw, broadcast_shapes_vec_mismatch.
Qed.

(** X2.  A noise vector of a single element is accepted against a map value
    of any number [n] of components: the element is added to each of them and
    no error is raised. *)
Theorem one_element_noise_is_broadcast sys x (q : Qc) s r s' ro so' (n k : nat) :
  f sys x s = (Ok r, s') -> g sys x s = (Ok ro, so') ->
  (wf r -> shape r = [n] ->
     dynamics x (vec [q]) (mk_world sys s) =
     (Ok (mk_nd [n] (map (fun c => c + q)%Qc (data r))), mk_world sys s'))
  /\ (wf ro -> shape ro = [k] ->
     measurements x (vec [q]) (mk_world sys s) =
     (Ok (mk_nd [k] (map (fun c => c + q)%Qc (data ro))), mk_world sys so')).
Proof.
  intros Hf Hg. split; intros Hwf Hs.
  - rewrite dynamics_run, Hf. unfold np_add. now rewrite (np_binop_vec_one _ q Hwf Hs).
  - rewrite measurements_run, Hg. unfold np_add. now rewrite (np_binop_vec_one _ q Hwf Hs).
Qed.

End NoiseShapes.

(** *** Initial states drawn from a distribution over scalars *)

Section UnivariateSampling.

Variable G : Type.
Implicit Types (sys : DynamicalSystem G) (s : G) (raw : ndarray).

(** X4.  When the initial-state distribution answers a request for [count]
    samples with a vector of [count] scalars, [sample_initial_state(count)]
    returns a column of [count] rows if [nx = 1] or [count = 0], and raises
    the reshape error for every other state dimension. *)
Theorem sample_initial_state_univariate sys (count : nat) s raw s' :
  rvs (dist_X sys) count s = (Ok raw, s') ->
  shape raw = [count] ->
  (nx sys = 1 \/ count = 0 ->
     sample_initial_state count (mk_world sys s) =
     (Ok (mk_nd [count; nx sys] (data raw)), mk_world sys s'))
  /\ (nx sys <> 1 -> count <> 0 ->
     sample_initial_state count (mk_world sys s) =
     (Fail ReshapeError, mk_world sys s')).
Proof.
  intros Hrvs Hs. rewrite sample_initial_state_run, Hrvs.
  unfold np_reshape, size. rewrite Hs, numel_pair.
  cbn [numel fold_right]. split.
  - intros H. replace (count * 1 =? count * nx sys) with true; [reflexivity|].
    symmetry. apply Nat.eqb_eq. destruct H as [-> | ->]; lia.
  - intros Hn Hc. replace (count * 1 =? count * nx sys) with false; [reflexivity|].
    symmetry. apply Nat.eqb_neq. nia.
Qed.

(** X5.  The rows of a successful [sample_initial_state(count)]: iterating
    over the result gives [count] well-formed rows of [nx] elements each,
    and the rows laid end to end are the elements of the draw in their
    order. *)
Theorem sample_initial_state_rows sys (count : nat) s raw s' :
  rvs (dist_X sys) count s = (Ok raw, s') ->
  wf raw -> size raw = count * nx sys ->
  exists out rows,
    sample_initial_state count (mk_world sys s) = (Ok out, mk_world sys s') /\
    np_iter out = Ok rows /\
    length rows = count /\
    Forall (fun row => shape row = [nx sys] /\ wf row) rows /\
    flat_map data rows = data raw.
Proof.
  intros Hrvs Hwf Hsz.
  assert (Hlen : length (data raw) = count * nx sys * 1)
    by (unfold wf in Hwf; lia).
  exists (mk_nd [count; nx sys] (data raw)),
         (map (mk_nd [nx sys]) (chunks (numel [nx sys]) count (data raw))).
  split; [|split; [reflexivity|split; [|split]]].
  - rewrite sample_initial_state_run, Hrvs. unfold np_reshape.
    now rewrite numel_pair, <- Hsz, Nat.eqb_refl.
  - now rewrite length_map, chunks_length.
  - apply Forall_map. cbn [numel fold_right].
    eapply Forall_impl; [|apply chunks_Forall_length; lia].
    intros c Hc. split; [reflexivity|].
    unfold wf, size. cbn [data shape numel fold_right]. exact Hc.
  - rewrite flat_map_concat_map, map_map. cbn [data]. rewrite map_id.
    apply chunks_concat. cbn [numel fold_right]. lia.
Qed.

End UnivariateSampling.

(** *** The derived maps at their edges *)

Lemma same_shape_map (A : Type) (F : A -> ndarray) (sh : list nat) (l : list A) :
  (forall a, shape (F a) = sh) -> same_shape (map F l) = true.
Proof.
  intros H. destruct l as [|a l]; [reflexivity|].
  cbn [map]. apply same_shape_cons. apply Forall_map, Forall_forall.
  intros b _. now rewrite !H.
Qed.

Lemma traverse_const (A B : Type) (v : B) (items : list A) :
  traverse (fun _ => Ok v) items = Ok (map (fun _ => v) items).
Proof. induction items as [|a items IH]; simpl; [reflexivity|]. now rewrite IH. Qed.

Section DerivedEdges.

Variable G : Type.
Implicit Types (s : G) (x w ws : ndarray) (dist : rv_continuous G).

(** One successful call of a derived map. *)
Lemma monte_carlo_mean_run (h : ndarray -> ndarray -> M G ndarray) dist
    (N_samples : nat) x s ws s1 items vals s2 :
  rvs dist N_samples s = (Ok ws, s1) ->
  np_iter ws = Ok items ->
  mapM (h x) items s1 = (Ok vals, s2) ->
  monte_carlo_mean h dist N_samples x s = (np_mean vals, s2).
Proof.
  intros Hrvs Hiter Hmap. unfold monte_carlo_mean. unfold bind at 1. rewrite Hrvs.
  unfold bind at 1, liftO at 1. rewrite Hiter.
  unfold bind, liftO. now rewrite Hmap.
Qed.

(** The list comprehension stops at the first sample on which the function
    raises. *)
Lemma mapM_fail_at (A B : Type) (h : A -> M G B) (pre post : list A) (a : A)
    s vs s2 e s3 :
  mapM h pre s = (Ok vs, s2) ->
  h a s2 = (Fail e, s3) ->
  mapM h (pre ++ a :: post) s = (Fail e, s3).
Proof.
  revert s vs; induction pre as [|b pre IH]; intros s vs; simpl.
  - unfold ret. intros [= _ <-] Ha. unfold bind. now rewrite Ha.
  - unfold bind at 1. destruct (h b s) as [[v|e0] sb] eqn:Hb; [|discriminate].
    unfold bind at 1. destruct (mapM h pre sb) as [[vs0|e0] sc] eqn:Hp; [|discriminate].
    unfold ret. intros [= _ <-] Ha.
    unfold bind at 1. rewrite Hb. unfold bind at 1.
    now rewrite (IH _ _ Hp Ha).
Qed.

(** X6.  A system built by [create_additive_system] hands back, from
    [dynamics(x, w)], an array of the shape of the noise [w], whatever the
    shape of [x]: the one mean value of the call added to each element of
    [w]. *)
Theorem additive_system_dynamics_takes_noise_shape (n m : nat)
    (h k : ndarray -> ndarray -> M G ndarray) (dX dist dO : rv_continuous G)
    (N_samples : nat) x w s ws s1 items vals s2 :
  rvs dist N_samples s = (Ok ws, s1) ->
  np_iter ws = Ok items ->
  mapM (h x) items s1 = (Ok vals, s2) ->
  same_shape vals = true ->
  flat_map data vals <> [] ->
  wf w ->
  let sys := create_additive_system n m h k dX dist dO N_samples in
  let xs := flat_map data vals in
  let mean := (sum xs / Qc_of_nat (length xs))%Qc in
  dynamics x w (mk_world sys s) =
  (Ok (mk_nd (shape w) (map (fun c => mean + c)%Qc (data w))), mk_world sys s2).
Proof.
  intros Hrvs Hiter Hmap Hsame Hne Hw sys xs mean.
  rewrite dynamics_run. subst sys. cbn [f create_additive_system].
  rewrite (monte_carlo_mean_run _ _ _ _ _ Hrvs Hiter Hmap).
  rewrite np_mean_ok by assumption.
  unfold np_add. now rewrite np_binop_scalar_l.
Qed.

(** X8.  When the raw function raises at one of the samples, the derived map
    raises the same error at once: the samples after it are not evaluated,
    and [dynamics] does not catch the error. *)
Theorem derived_map_raw_failure (n m : nat)
    (h k : ndarray -> ndarray -> M G ndarray) (dX dist dO : rv_continuous G)
    (N_samples : nat) x s ws s1 (pre post : list ndarray) (bad : ndarray)
    vs s2 e s3 :
  rvs dist N_samples s = (Ok ws, s1) ->
  np_iter ws = Ok (pre ++ bad :: post) ->
  mapM (h x) pre s1 = (Ok vs, s2) ->
  h x bad s2 = (Fail e, s3) ->
  let sys := create_additive_system n m h k dX dist dO N_samples in
  f sys x s = (Fail e, s3) /\
  forall w, dynamics x w (mk_world sys s) = (Fail e, mk_world sys s3).
Proof.
  intros Hrvs Hiter Hpre Hbad sys.
  assert (Hf : f sys x s = (Fail e, s3)).
  { subst sys. cbn [f create_additive_system].
    unfold monte_carlo_mean. unfold bind at 1. rewrite Hrvs.
    unfold bind at 1, liftO at 1. rewrite Hiter.
    unfold bind.
    now rewrite (@mapM_fail_at _ _ (h x) pre post bad s1 vs s2 e s3 Hpre Hbad). }
  split; [exact Hf|]. intros w. now rewrite dynamics_run, Hf.
Qed.

(** X9.  A raw function which ignores its noise argument and returns [r] at
    [x]: the derived map hands back the mean of as many copies of [r] as
    samples were drawn, so its value depends on the draw through the number
    of samples only, and two calls whose draws have the same number of
    samples return the same value. *)
Theorem derived_map_ignores_unused_samples (n m : nat)
    (c : ndarray -> outcome ndarray) (k : ndarray -> ndarray -> M G ndarray)
    (dX dist dO : rv_continuous G) (N_samples : nat) x s ws s1 items r :
  rvs dist N_samples s = (Ok ws, s1) ->
  np_iter ws = Ok items ->
  c x = Ok r ->
  let sys := create_additive_system n m (pure_raw (fun x _ => c x)) k
               dX dist dO N_samples in
  f sys x s = (np_mean (repeat r (length items)), s1) /\
  (forall s' ws' s1' items',
     rvs dist N_samples s' = (Ok ws', s1') ->
     np_iter ws' = Ok items' ->
     length items' = length items ->
     fst (f sys x s') = fst (f sys x s)).
Proof.
  intros Hrvs Hiter Hc sys.
  assert (Hrun : forall s0 ws0 t0 items0,
             rvs dist N_samples s0 = (Ok ws0, t0) ->
             np_iter ws0 = Ok items0 ->
             f sys x s0 = (np_mean (repeat r (length items0)), t0)).
  { intros s0 ws0 t0 items0 H0 Hi. subst sys. cbn [f create_additive_system].
    rewrite monte_carlo_mean_pure, H0. unfold mean_over.
    now rewrite Hi, Hc, traverse_const, map_const. }
  split; [now apply Hrun with (ws0 := ws)|].
  intros s' ws' s1' items' H' Hi' Hlen.
  rewrite (Hrun _ _ _ _ H' Hi'), (Hrun _ _ _ _ Hrvs Hiter). simpl.
  now rewrite Hlen.
Qed.

End DerivedEdges.

(* ------------------------------------------------------------------ *)
(** ** The further properties at concrete systems *)

(** Three components of state against two of noise. *)
Lemma noise_length_mismatch_raises_witness :
  (f (affine_system 1 counter_dist) (vec [Q2Qc 5; Q2Qc 6; Q2Qc 7]) 0
   = (Ok (vec [Q2Qc 6; Q2Qc 7; Q2Qc 8]), 0) /\
   g (affine_system 1 counter_dist) (vec [Q2Qc 5; Q2Qc 6; Q2Qc 7]) 0
   = (Ok (vec [Q2Qc 10; Q2Qc 12; Q2Qc 14]), 0)) /\
  dynamics (vec [Q2Qc 5; Q2Qc 6; Q2Qc 7]) (vec [1%Qc; 1%Qc])
    (mk_world (affine_system 1 counter_dist) 0)
  = (Fail BroadcastError, mk_world (affine_system 1 counter_dist) 0) /\
  measurements (vec [Q2Qc 5; Q2Qc 6; Q2Qc 7]) (vec [1%Qc; 1%Qc])
    (mk_world (affine_system 1 counter_dist) 0)
  = (Fail BroadcastError, mk_world (affine_system 1 counter_dist) 0).
Proof.
  assert (Hf : f (affine_system 1 counter_dist) (vec [Q2Qc 5; Q2Qc 6; Q2Qc 7]) 0
               = (Ok (vec [Q2Qc 6; Q2Qc 7; Q2Qc 8]), 0)) by qc_eq.
  assert (Hg : g (affine_system 1 counter_dist) (vec [Q2Qc 5; Q2Qc 6; Q2Qc 7]) 0
               = (Ok (vec [Q2Qc 10; Q2Qc 12; Q2Qc 14]), 0)) by qc_eq.
  split; [split; assumption|].
  destruct (@noise_length_mismatch_raises nat (affine_system 1 counter_dist)
              _ (vec [1%Qc; 1%Qc]) _ _ _ _ _ 3 2 3 Hf Hg eq_refl)
    as (Hd & Hm); [discriminate|].
  split; [apply Hd | apply Hm]; try reflexivity; discriminate.
Defined.

(** Three components of state against a single noise element. *)
Lemma one_element_noise_is_broadcast_witness :
  (f (affine_system 1 counter_dist) (vec [Q2Qc 5; Q2Qc 6; Q2Qc 7]) 0
   = (Ok (vec [Q2Qc 6; Q2Qc 7; Q2Qc 8]), 0) /\
   g (affine_system 1 counter_dist) (vec [Q2Qc 5; Q2Qc 6; Q2Qc 7]) 0
   = (Ok (vec [Q2Qc 10; Q2Qc 12; Q2Qc 14]), 0)) /\
  dynamics (vec [Q2Qc 5; Q2Qc 6; Q2Qc 7]) (vec [Q2Qc 3])
    (mk_world (affine_system 1 counter_dist) 0)
  = (Ok (mk_nd [3] (map (fun c => c + Q2Qc 3)%Qc [Q2Qc 6; Q2Qc 7; Q2Qc 8])),
     mk_world (affine_system 1 counter_dist) 0).
Proof.
  assert (Hf : f (affine_system 1 counter_dist) (vec [Q2Qc 5; Q2Qc 6; Q2Qc 7]) 0
               = (Ok (vec [Q2Qc 6; Q2Qc 7; Q2Qc 8]), 0)) by qc_eq.
  assert (Hg : g (affine_system 1 counter_dist) (vec [Q2Qc 5; Q2Qc 6; Q2Qc 7]) 0
               = (Ok (vec [Q2Qc 10; Q2Qc 12; Q2Qc 14]), 0)) by qc_eq.
  split; [split; assumption|].
  destruct (@one_element_noise_is_broadcast nat (affine_system 1 counter_dist)
              _ (Q2Qc 3) _ _ _ _ _ 3 3 Hf Hg) as (Hd & _).
  apply Hd; reflexivity.
Defined.

(** Three draws from a distribution over scalars: a column for [nx = 1], the
    reshape error for [nx = 2]. *)
Lemma sample_initial_state_univariate_witness :
  rvs ramp_dist 3 0 = (Ok (vec (map Qc_of_nat [0; 1; 2])), 1) /\
  sample_initial_state 3 (mk_world (affine_system 1 ramp_dist) 0)
  = (Ok (mk_nd [3; 1] (map Qc_of_nat [0; 1; 2])),
     mk_world (affine_system 1 ramp_dist) 1) /\
  sample_initial_state 3 (mk_world (affine_system 2 ramp_dist) 0)
  = (Fail ReshapeError, mk_world (affine_system 2 ramp_dist) 1).
Proof.
  split; [reflexivity|]. split.
  - destruct (@sample_initial_state_univariate nat (affine_system 1 ramp_dist)
                3 0 (vec (map Qc_of_nat [0; 1; 2])) 1 eq_refl eq_refl)
      as (Hok & _).
    apply Hok. left. reflexivity.
  - destruct (@sample_initial_state_univariate nat (affine_system 2 ramp_dist)
                3 0 (vec (map Qc_of_nat [0; 1; 2])) 1 eq_refl eq_refl)
      as (_ & Herr).
    apply Herr; discriminate.
Defined.

(** Three rows of two columns out of six drawn elements. *)
Lemma sample_initial_state_rows_witness :
  (rvs (block_dist 2 1%Qc) 3 0 = (Ok (mk_nd [3; 2] (repeat 1%Qc 6)), 1) /\
   wf (mk_nd [3; 2] (repeat 1%Qc 6))) /\
  exists out rows,
    sample_initial_state 3 (mk_world (affine_system 2 (block_dist 2 1%Qc)) 0)
      = (Ok out, mk_world (affine_system 2 (block_dist 2 1%Qc)) 1) /\
    np_iter out = Ok rows /\
    length rows = 3 /\
    Forall (fun row => shape row = [2] /\ wf row) rows /\
    flat_map data rows = repeat 1%Qc 6.
Proof.
  split; [split; reflexivity|].
  apply (@sample_initial_state_rows nat (affine_system 2 (block_dist 2 1%Qc))
           3 0 (mk_nd [3; 2] (repeat 1%Qc 6)) 1 eq_refl); reflexivity.
Defined.

(** A state of two components, a noise of three: the result has three. *)
Lemma additive_system_dynamics_takes_noise_shape_witness :
  (rvs (constant_dist 1%Qc) 3 0 = (Ok (vec [1; 1; 1]%Qc), 1) /\
   np_iter (vec [1; 1; 1]%Qc) = Ok [scalar 1%Qc; scalar 1%Qc; scalar 1%Qc] /\
   mapM (add_noise (vec [0%Qc; Q2Qc 2]))
     [scalar 1%Qc; scalar 1%Qc; scalar 1%Qc] 1
   = (Ok [vec [(0 + 1)%Qc; (Q2Qc 2 + 1)%Qc]; vec [(0 + 1)%Qc; (Q2Qc 2 + 1)%Qc];
          vec [(0 + 1)%Qc; (Q2Qc 2 + 1)%Qc]], 1)) /\
  dynamics (vec [0%Qc; Q2Qc 2]) (vec [Q2Qc 10; Q2Qc 20; Q2Qc 30])
    (mk_world unit_draw_system 0)
  = (Ok (vec [Q2Qc 12; Q2Qc 22; Q2Qc 32]), mk_world unit_draw_system 1).
Proof.
  assert (Hrvs : rvs (constant_dist 1%Qc) 3 0 = (Ok (vec [1; 1; 1]%Qc), 1))
    by reflexivity.
  assert (Hiter : np_iter (vec [1; 1; 1]%Qc)
                  = Ok [scalar 1%Qc; scalar 1%Qc; scalar 1%Qc]) by reflexivity.
  assert (Hmap : mapM (add_noise (vec [0%Qc; Q2Qc 2]))
                   [scalar 1%Qc; scalar 1%Qc; scalar 1%Qc] 1
                 = (Ok [vec [(0 + 1)%Qc; (Q2Qc 2 + 1)%Qc];
                        vec [(0 + 1)%Qc; (Q2Qc 2 + 1)%Qc];
                        vec [(0 + 1)%Qc; (Q2Qc 2 + 1)%Qc]], 1)) by reflexivity.
  split; [repeat split; assumption|].
  pose proof (@additive_system_dynamics_takes_noise_shape nat 1 1
                add_noise add_noise (constant_dist 0%Qc) (constant_dist 1%Qc)
                (constant_dist 1%Qc) 3 (vec [0%Qc; Q2Qc 2])
                (vec [Q2Qc 10; Q2Qc 20; Q2Qc 30]) 0 _ _ _ _ _
                Hrvs Hiter Hmap eq_refl) as Hdyn.
  cbv zeta in Hdyn. fold unit_draw_system in Hdyn.
  rewrite Hdyn by (try discriminate; reflexivity).
  qc_eq.
Defined.

(** The samples 0, 1, 2 and a raw function which rejects the sample 1. *)
Lemma derived_map_raw_failure_witness :
  (rvs ramp_dist 3 0 = (Ok (vec (map Qc_of_nat [0; 1; 2])), 1) /\
   np_iter (vec (map Qc_of_nat [0; 1; 2]))
   = Ok ([scalar (Qc_of_nat 0)] ++ scalar (Qc_of_nat 1) :: [scalar (Qc_of_nat 2)]) /\
   mapM (reject_sample (Qc_of_nat 1) (scalar (Q2Qc 5))) [scalar (Qc_of_nat 0)] 1
   = (Ok [scalar (Q2Qc 5 + Qc_of_nat 0)%Qc], 1) /\
   reject_sample (Qc_of_nat 1) (scalar (Q2Qc 5)) (scalar (Qc_of_nat 1)) 1
   = (Fail (UserError 1), 1)) /\
  f (create_additive_system 1 1 (reject_sample (Qc_of_nat 1)) add_noise
       (constant_dist 0%Qc) ramp_dist ramp_dist 3) (scalar (Q2Qc 5)) 0
  = (Fail (UserError 1), 1).
Proof.
  split; [repeat split|].
  apply (@derived_map_raw_failure nat 1 1 (reject_sample (Qc_of_nat 1)) add_noise
           (constant_dist 0%Qc) ramp_dist ramp_dist 3 (scalar (Q2Qc 5)) 0
           (vec (map Qc_of_nat [0; 1; 2])) 1
           [scalar (Qc_of_nat 0)] [scalar (Qc_of_nat 2)] (scalar (Qc_of_nat 1))
           [scalar (Q2Qc 5 + Qc_of_nat 0)%Qc] 1 (UserError 1) 1
           eq_refl eq_refl eq_refl eq_refl).
Defined.

(** The raw function [lambda x, w: x] at the state [[1, 3]], over the
    draws number 0 and number 1 of a varying distribution. *)
Lemma derived_map_ignores_unused_samples_witness :
  (rvs ramp_dist 3 0 = (Ok (vec (map Qc_of_nat (seq 0 3))), 1) /\
   np_iter (vec (map Qc_of_nat (seq 0 3)))
   = Ok [scalar (Qc_of_nat 0); scalar (Qc_of_nat 1); scalar (Qc_of_nat 2)]) /\
  f (create_additive_system 2 1 (pure_raw (fun x _ => Ok x)) add_noise
       (constant_dist 0%Qc) ramp_dist ramp_dist 3) (vec [1%Qc; Q2Qc 3]) 0
  = (np_mean (repeat (vec [1%Qc; Q2Qc 3]) 3), 1) /\
  fst (f (create_additive_system 2 1 (pure_raw (fun x _ => Ok x)) add_noise
            (constant_dist 0%Qc) ramp_dist ramp_dist 3) (vec [1%Qc; Q2Qc 3]) 1)
  = fst (f (create_additive_system 2 1 (pure_raw (fun x _ => Ok x)) add_noise
              (constant_dist 0%Qc) ramp_dist ramp_dist 3) (vec [1%Qc; Q2Qc 3]) 0).
Proof.
  split; [split; reflexivity|].
  destruct (@derived_map_ignores_unused_samples nat 2 1 (fun x => Ok x) add_noise
              (constant_dist 0%Qc) ramp_dist ramp_dist 3
              (vec [1%Qc; Q2Qc 3]) 0 (vec (map Qc_of_nat (seq 0 3))) 1
              [scalar (Qc_of_nat 0); scalar (Qc_of_nat 1); scalar (Qc_of_nat 2)]
              (vec [1%Qc; Q2Qc 3]) eq_refl eq_refl eq_refl) as (Hrun & Hsame).
  split; [exact Hrun|].
  apply (Hsame 1 (vec (map Qc_of_nat (seq 1 3))) 2
           [scalar (Qc_of_nat 1); scalar (Qc_of_nat 2); scalar (Qc_of_nat 3)]);
    reflexivity.
Defined.
